(** * A shallow embedding of [downloader.py] (pic.re-downloader)

    The script has three parts that the development follows:
    - [download_image] (lines 20-71): one fetch, filename derivation,
      content hashing, the duplicate check and the write;
    - [download_picre_varied_images_resume] (lines 73-138): the resume scan
      of the output folder and the thread pool that runs [download_image];
    - the [__main__] block (lines 141-161): the two prompts.

    Python strings are [string] (ASCII), bytes are [list byte], Python ints
    are [Z], a Python [set] of hex digests is a list of strings updated by
    [set_add] (insert if absent), and the directory is an association list
    from paths to contents. SHA-256 is not computed: the hex digest is a
    parameter [sha] of the whole development. *)

From Stdlib Require Import ZArith Lia List Bool Ascii String Strings.Byte.
From Stdlib Require Import Numbers.DecimalString Numbers.DecimalPos.
Import ListNotations.
Open Scope string_scope.
Open Scope Z_scope.

(** ** Python string builtins used by the script *)
Module Py.

(** [str.lower] on ASCII characters. *)
Definition ascii_lower (c : ascii) : ascii :=
  let n := nat_of_ascii c in
  if (Nat.leb 65 n && Nat.leb n 90)%bool then ascii_of_nat (n + 32) else c.

Fixpoint lower (s : string) : string :=
  match s with
  | EmptyString => EmptyString
  | String c r => String (ascii_lower c) (lower r)
  end.

(** [sub in s] for strings. *)
Definition contains (sub s : string) : bool :=
  match String.index 0 sub s with Some _ => true | None => false end.

(** [s.find(sub)]: [None] stands for Python's [-1]. *)
Definition find (s sub : string) : option nat := String.index 0 sub s.

(** [s[k:]] *)
Fixpoint drop (k : nat) (s : string) : string :=
  match k, s with
  | O, _ => s
  | S _, EmptyString => EmptyString
  | S k', String _ r => drop k' r
  end.

(** [s.startswith(p)] and [s.endswith(p)] *)
Definition startswith (s p : string) : bool := String.prefix p s.

Definition endswith (s p : string) : bool :=
  let ls := list_ascii_of_string s in
  let lp := list_ascii_of_string p in
  String.prefix (string_of_list_ascii (rev lp)) (string_of_list_ascii (rev ls)).

(** [s.strip(chars)] for a one-character [chars] (used with the double
    quote, [ascii_of_nat 34]). *)
Fixpoint lstrip_char (c : ascii) (s : string) : string :=
  match s with
  | String a r => if Ascii.eqb a c then lstrip_char c r else s
  | EmptyString => EmptyString
  end.

Definition rstrip_char (c : ascii) (s : string) : string :=
  string_of_list_ascii
    (rev (list_ascii_of_string (lstrip_char c
      (string_of_list_ascii (rev (list_ascii_of_string s)))))).

Definition strip_char (c : ascii) (s : string) : string :=
  rstrip_char c (lstrip_char c s).

(** [s.split(sep)] for a one-character separator: every occurrence splits,
    empty pieces are kept, and [''.split(sep) = ['']]. *)
Fixpoint split (sep : ascii) (s : string) : list string :=
  match s with
  | EmptyString => [EmptyString]
  | String a r =>
      let rest := split sep r in
      if Ascii.eqb a sep then EmptyString :: rest
      else match rest with
           | h :: t => String a h :: t
           | [] => [String a EmptyString]
           end
  end.

(** [f"{i}"] for an int. *)
Definition str_of_int (z : Z) : string :=
  NilEmpty.string_of_int (Z.to_int z).

(** [int(s)] for a [str]: surrounding whitespace is stripped, then an
    optional sign, then decimal digits with single underscores allowed
    between digits. [None] is Python's [ValueError]. *)
Definition is_space (c : ascii) : bool :=
  let n := nat_of_ascii c in
  (Nat.eqb n 32 || (Nat.leb 9 n && Nat.leb n 13) || (Nat.leb 28 n && Nat.leb n 31))%bool.

Definition digit_val (c : ascii) : option Z :=
  let n := nat_of_ascii c in
  if (Nat.leb 48 n && Nat.leb n 57)%bool then Some (Z.of_nat (n - 48)) else None.

(** [acc] is the value read so far, [prev_digit] says whether the previous
    character was a digit (an underscore must sit between two digits). *)
Fixpoint digits (l : list ascii) (acc : Z) (prev_digit : bool) : option Z :=
  match l with
  | [] => if prev_digit then Some acc else None
  | c :: r =>
      match digit_val c with
      | Some d => digits r (10 * acc + d) true
      | None =>
          if (Ascii.eqb c "_"%char && prev_digit)%bool
          then match r with
               | c' :: _ => match digit_val c' with
                            | Some _ => digits r acc false
                            | None => None
                            end
               | [] => None
               end
          else None
      end
  end.

Fixpoint drop_spaces (l : list ascii) : list ascii :=
  match l with
  | c :: r => if is_space c then drop_spaces r else l
  | [] => []
  end.

Definition strip_spaces (l : list ascii) : list ascii :=
  rev (drop_spaces (rev (drop_spaces l))).

Definition int (s : string) : option Z :=
  match strip_spaces (list_ascii_of_string s) with
  | "-"%char :: r => option_map Z.opp (digits r 0 false)
  | "+"%char :: r => digits r 0 false
  | l => digits l 0 false
  end.

(** [os.path.splitext(p)[0]] (posixpath): the extension starts at the last
    dot of the last path component, unless that component is all leading
    dots up to it. *)
Fixpoint rfind_aux (c : ascii) (l : list ascii) (k : nat) (found : option nat)
  : option nat :=
  match l with
  | [] => found
  | a :: r => rfind_aux c r (S k) (if Ascii.eqb a c then Some k else found)
  end.

Definition rfind (c : ascii) (s : string) : option nat :=
  rfind_aux c (list_ascii_of_string s) 0 None.

Definition splitext_root (p : string) : string :=
  let l := list_ascii_of_string p in
  let sep_index := match rfind "/"%char p with Some k => Z.of_nat k | None => -1 end in
  match rfind "."%char p with
  | Some dot =>
      if sep_index <? Z.of_nat dot then
        (* some character between the separator and the dot is not a dot *)
        let between := firstn (dot - Z.to_nat (sep_index + 1))
                              (skipn (Z.to_nat (sep_index + 1)) l) in
        if existsb (fun a => negb (Ascii.eqb a "."%char)) between
        then string_of_list_ascii (firstn dot l)
        else p
      else p
  | None => p
  end.

(** [os.path.join(a, b)] (posixpath) for two components. *)
Definition join (a b : string) : string :=
  if startswith b "/" then b
  else if (String.eqb a "" || endswith a "/")%bool then a ++ b
  else a ++ "/" ++ b.

End Py.

(** ** The network layer as [download_image] sees it *)

(** The exceptions that can reach the handlers of lines 66-71. All of them
    are subclasses of [Exception]; the [requests] ones are subclasses of
    [requests.exceptions.RequestException]. *)
Inductive py_exn :=
| ConnectionError        (* requests.get: DNS, refused, reset, read timeout *)
| Timeout                (* requests.get: connect timeout (timeout=10) *)
| HTTPError              (* raise_for_status on a 4xx or 5xx status *)
| ChunkedEncodingError   (* iter_content: the body breaks off *)
| StreamConsumedError    (* iter_content called on a consumed stream *)
| OSError.               (* open(file_path, 'wb') fails *)

Definition is_request_exception (e : py_exn) : bool :=
  match e with OSError => false | _ => true end.

(** The final response of [requests.get(image_url, stream=True, timeout=10)]
    (after redirects). [body] is what the server sends; when [body_breaks]
    the transfer fails after [body] was delivered. *)
Record response := mk_response {
  status : Z;
  headers : list (string * string);
  body : list byte;
  body_breaks : bool }.

Inductive net_result :=
| NetRaise (e : py_exn)          (* requests.get raised *)
| NetResponse (r : response).

(** [response.headers] is a [CaseInsensitiveDict]. *)
Fixpoint header_get (hs : list (string * string)) (k : string) : option string :=
  match hs with
  | [] => None
  | (k', v) :: r => if String.eqb (Py.lower k') (Py.lower k) then Some v else header_get r k
  end.

(** [response.raise_for_status()] *)
Definition raise_for_status (r : response) : option py_exn :=
  if (400 <=? status r) && (status r <? 600) then Some HTTPError else None.

(** A streamed response body: [iter_content] yields the body once and marks
    the response as consumed; a second call on a consumed (and not cached)
    body raises [StreamConsumedError] before yielding anything. *)
Record stream := mk_stream { s_resp : response; consumed : bool }.

Inductive iter_result :=
| IterRaise (e : py_exn)                                   (* raised at the call *)
| IterChunks (data : list byte) (tail : option py_exn) (s' : stream).
                    (* [data] yielded, then [tail] raised if present *)

Definition iter_content (s : stream) : iter_result :=
  if consumed s then IterRaise StreamConsumedError
  else if body_breaks (s_resp s)
  then IterChunks (body (s_resp s)) (Some ChunkedEncodingError) s
  else IterChunks (body (s_resp s)) None (mk_stream (s_resp s) true).

(** ** Filename derivation, lines 26-42 *)
Definition default_name (i : Z) : string := "image_" ++ Py.str_of_int i ++ ".webp".

Definition derive_filename (i : Z) (hs : list (string * string)) : string :=
  let filename := default_name i in
  let filename :=
    match header_get hs "content-disposition" with
    | Some content_disposition =>
        match Py.find content_disposition "filename=" with
        | Some filename_start =>
            let filename_from_header :=
              Py.strip_char (ascii_of_nat 34)
                (Py.drop (filename_start + String.length "filename=") content_disposition) in
            Py.splitext_root filename_from_header ++ "_" ++ Py.str_of_int i ++ ".webp"
        | None => default_name i
        end
    | None => filename
    end in
  let content_type := match header_get hs "Content-Type" with Some v => v | None => "" end in
  if negb (Py.contains "image/webp" (Py.lower content_type))
  then default_name i
  else filename.

(** ** Shared state: the output folder and the digest set *)

(** Files by path. [fs_put p c] is [open(p, 'wb')] followed by writing [c]:
    the file is created or truncated. *)
Definition files := list (string * list byte).

Fixpoint fs_get (fs : files) (p : string) : option (list byte) :=
  match fs with
  | [] => None
  | (p', c) :: r => if String.eqb p' p then Some c else fs_get r p
  end.

Fixpoint fs_put (p : string) (c : list byte) (fs : files) : files :=
  match fs with
  | [] => [(p, c)]
  | (p', c') :: r => if String.eqb p' p then (p, c) :: r else (p', c') :: fs_put p c r
  end.

(** A Python [set] of hex digests. *)
Definition set_mem (h : string) (s : list string) : bool := existsb (String.eqb h) s.

Definition set_add (h : string) (s : list string) : list string :=
  if set_mem h s then s else (s ++ [h])%list.

Record world := mk_world { fs : files; hashes : list string }.

(** One call [download_image(image_url, output_folder, i, existing_hashes)];
    the network's answer for this call is part of the task. *)
Record task := mk_task {
  t_url : string;
  t_folder : string;
  t_i : Z;
  t_net : net_result }.

(** Where a thread running [download_image] is. The shared state is touched
    at [PCheck] (line 52, a read of the set), [POpen] (line 57, the file is
    created), [PWrite] (lines 58-59) and [PAdd] (line 62); [PStart] covers
    lines 23-50, which only touch the response. *)
Inductive pc :=
| PStart
| PCheck (file_path content_hash : string) (s : stream)
| POpen (file_path content_hash : string) (s : stream)
| PWrite (file_path content_hash : string) (s : stream)
| PAdd (content_hash : string)
| PDone (ret : bool).

Inductive outcome := Ok (p : pc) | Raise (e : py_exn).

(** The two handlers of lines 66-71. *)
Definition except_handlers (e : py_exn) : bool :=
  if is_request_exception e then false (* line 68 *) else false (* line 71 *).

Section DownloadImage.

(** [hashlib.sha256(data).hexdigest()] and whether [open(p, 'wb')] succeeds
    (the directory exists and is writable). *)
Variable sha : list byte -> string.
Variable can_open : string -> bool.

(** Lines 23-50. *)
Definition fetch_phase (t : task) : outcome :=
  match t_net t with
  | NetRaise e => Raise e
  | NetResponse response =>
      match raise_for_status response with
      | Some e => Raise e
      | None =>
          let filename := derive_filename (t_i t) (headers response) in
          let file_path := Py.join (t_folder t) filename in
          match iter_content (mk_stream response false) with
          | IterRaise e => Raise e
          | IterChunks _ (Some e) _ => Raise e
          | IterChunks data None s' => Ok (PCheck file_path (sha data) s')
          end
      end
  end.

(** One atomic step of the thread running [t], inside the [try]. *)
Definition try_step (t : task) (p : pc) (w : world) : outcome * world :=
  match p with
  | PStart => (fetch_phase t, w)
  | PCheck file_path content_hash s =>
      if set_mem content_hash (hashes w) then (Ok (PDone false), w)   (* line 54 *)
      else (Ok (POpen file_path content_hash s), w)
  | POpen file_path content_hash s =>
      if can_open file_path
      then (Ok (PWrite file_path content_hash s), mk_world (fs_put file_path [] (fs w)) (hashes w))
      else (Raise OSError, w)
  | PWrite file_path content_hash s =>
      match iter_content s with
      | IterRaise e => (Raise e, w)
      | IterChunks data (Some e) _ =>
          (Raise e, mk_world (fs_put file_path data (fs w)) (hashes w))
      | IterChunks data None _ =>
          (Ok (PAdd content_hash), mk_world (fs_put file_path data (fs w)) (hashes w))
      end
  | PAdd content_hash =>
      (Ok (PDone true), mk_world (fs w) (set_add content_hash (hashes w)))  (* line 64 *)
  | PDone b => (Ok (PDone b), w)
  end.

Definition step (t : task) (p : pc) (w : world) : pc * world :=
  match try_step t p w with
  | (Ok p', w') => (p', w')
  | (Raise e, w') => (PDone (except_handlers e), w')
  end.

Fixpoint run_thread (fuel : nat) (t : task) (p : pc) (w : world) : pc * world :=
  match fuel with
  | O => (p, w)
  | S f =>
      match p with
      | PDone _ => (p, w)
      | _ => let '(p', w') := step t p w in run_thread f t p' w'
      end
  end.

(** [download_image] run by one thread without interference: five steps
    reach [PDone] from [PStart] (see [run_thread_done]). *)
Definition download_image (t : task) (w : world) : bool * world :=
  match run_thread 5 t PStart w with
  | (PDone b, w') => (b, w')
  | (_, w') => (false, w')
  end.

(** ** The thread pool, lines 130-136

    [ThreadPoolExecutor(max_workers=m)]: tasks are started in submission
    order, at most [m] are in progress at once, and the threads in progress
    interleave their atomic steps in any order. A schedule names the task
    whose thread takes the next step; it is refused if that step is not
    possible. *)
Definition in_progress (p : pc) : bool :=
  match p with PStart | PDone _ => false | _ => true end.

Definition started (p : pc) : bool := match p with PStart => false | _ => true end.

Definition is_done (p : pc) : bool := match p with PDone _ => true | _ => false end.

Definition pool := list (task * pc).

Definition pool_step (m : nat) (j : nat) (ts : pool) (w : world) : option (pool * world) :=
  match nth_error ts j with
  | None => None
  | Some (t, p) =>
      if is_done p then None
      else if started p
           || (Nat.ltb (List.length (filter (fun tp => in_progress (snd tp)) ts)) m
               && forallb (fun tp => started (snd tp)) (firstn j ts))%bool
      then let '(p', w') := step t p w in
           Some ((firstn j ts ++ (t, p') :: skipn (S j) ts)%list, w')
      else None
  end.

Fixpoint run_sched (m : nat) (sched : list nat) (ts : pool) (w : world)
  : option (pool * world) :=
  match sched with
  | [] => Some (ts, w)
  | j :: rest =>
      match pool_step m j ts w with
      | Some (ts', w') => run_sched m rest ts' w'
      | None => None
      end
  end.

End DownloadImage.

(** ** The resume scan, lines 96-126 *)

(** An entry of [os.listdir(output_folder)]: its name, whether
    [os.path.isfile] holds, and its bytes when [open(file_path, 'rb')]
    succeeds ([None]: missing or unreadable). *)
Record entry := mk_entry {
  e_name : string;
  e_is_file : bool;
  e_data : option (list byte) }.

Section Scan.

Variable sha : list byte -> string.

(** [calculate_sha256], lines 6-18: [None] when the file cannot be read. *)
Definition calculate_sha256 (e : entry) : option string :=
  match e_data e with
  | Some data => Some (sha data)
  | None => None
  end.

(** [int(filename.split('_')[1].split('.')[0])], line 103; [None] is the
    [IndexError] or [ValueError] of line 105. *)
Definition parse_index (filename : string) : option Z :=
  match nth_error (Py.split "_"%char filename) 1 with
  | None => None
  | Some part =>
      match Py.split "."%char part with
      | x :: _ => Py.int x
      | [] => None
      end
  end.

(** The body of the loop of lines 101-106. *)
Definition collect_index (existing_indices : list Z) (filename : string) : list Z :=
  match parse_index filename with
  | Some index => (existing_indices ++ [index])%list
  | None => existing_indices     (* the warning of line 106 *)
  end.

Definition is_image_name (f : string) : bool :=
  Py.startswith f "image_" && Py.endswith f ".webp".

(** Lines 97-113. *)
Definition start_index (dir : list entry) : Z :=
  let existing_files := filter is_image_name (map e_name dir) in
  match existing_files with
  | [] => 1
  | _ =>
      let existing_indices := fold_left collect_index existing_files [] in
      match existing_indices with
      | [] => 1
      | x :: xs => fold_left Z.max xs x + 1
      end
  end.

(** The body of the loop of lines 120-125; [if hash_value:] is the
    truthiness of a [str]. *)
Definition hash_entry (existing_hashes : list string) (e : entry) : list string :=
  if e_is_file e then
    match calculate_sha256 e with
    | Some hash_value =>
        if negb (String.eqb hash_value "")
        then set_add hash_value existing_hashes
        else existing_hashes
    | None => existing_hashes
    end
  else existing_hashes.

(** Lines 118-125. *)
Definition scan_hashes (dir : list entry) : list string :=
  fold_left hash_entry dir [].

End Scan.

Definition image_url : string := "https://pic.re/image".

(** The tasks submitted at line 132, one per index of
    [range(start_index, start_index + num_images)], with the network's
    answer to each request. *)
Fixpoint tasks_of (folder : string) (i : Z) (nets : list net_result) : pool :=
  match nets with
  | [] => []
  | n :: rest => (mk_task image_url folder i n, PStart) :: tasks_of folder (i + 1) rest
  end.

(** [download_picre_varied_images_resume(len nets, m)] on an output folder
    whose listing is [dir] and whose files are [fs0], under a schedule. *)
Definition resume_run (sha : list byte -> string) (can_open : string -> bool)
  (m : nat) (folder : string) (dir : list entry) (fs0 : files)
  (nets : list net_result) (sched : list nat) : option (pool * world) :=
  run_sched sha can_open m sched (tasks_of folder (start_index dir) nets)
            (mk_world fs0 (scan_hashes sha dir)).

(** ** The prompts of [__main__], lines 141-160

    Each [input()] consumes one line; running out of lines is the
    [EOFError] of [input()] ([None]). *)
Fixpoint read_count (lines : list string) : option (Z * list string) :=
  match lines with
  | [] => None
  | l :: rest =>
      match Py.int l with
      | Some count => Some (count, rest)
      | None => read_count rest     (* line 147 *)
      end
  end.

Fixpoint read_threads (lines : list string) : option (Z * list string) :=
  match lines with
  | [] => None
  | l :: rest =>
      match Py.int l with
      | Some num_threads =>
          if 0 <? num_threads then Some (num_threads, rest)
          else read_threads rest    (* line 156 *)
      | None => read_threads rest   (* line 158 *)
      end
  end.

(** The arguments passed at line 160. *)
Definition main_args (lines : list string) : option (Z * Z) :=
  match read_count lines with
  | None => None
  | Some (count, rest) =>
      match read_threads rest with
      | None => None
      | Some (num_threads, _) => Some (count, num_threads)
      end
  end.

(** ** What a thread's local state remembers of its response

    The digest and the stream a thread carries after line 50 come from the
    response of its own request. *)
Definition pc_from (sha : list byte -> string) (t : task) (p : pc) : Prop :=
  match p with
  | PCheck _ h s | POpen _ h s | PWrite _ h s =>
      exists r, t_net t = NetResponse r /\ h = sha (body r) /\ s_resp s = r
  | PAdd h => exists r, t_net t = NetResponse r /\ h = sha (body r)
  | PStart | PDone _ => True
  end.

Definition pool_from (sha : list byte -> string) (ts : pool) : Prop :=
  Forall (fun tp => pc_from sha (fst tp) (snd tp)) ts.

(** What one step of the pool (or a run of it) may do to the set and to the folder. *)
Definition step_effects (sha : list byte -> string) (ts : pool) (w w' : world) : Prop :=
  incl (hashes w) (hashes w')
  /\ (forall h, In h (hashes w') -> In h (hashes w)
        \/ exists t r, In t (map fst ts) /\ t_net t = NetResponse r /\ h = sha (body r))
  /\ (forall q c, fs_get (fs w') q = Some c -> fs_get (fs w) q = Some c \/ c = []
        \/ exists t r, In t (map fst ts) /\ t_net t = NetResponse r /\ c = body r).

(** ** Auxiliary notions for the further properties *)

(** A character that is none of the separators the script splits on
    ([_], [.]), not the path separator and not whitespace. *)
Definition plain_char (c : ascii) : Prop :=
  Ascii.eqb c "_"%char = false /\ Ascii.eqb c "."%char = false
  /\ Ascii.eqb c "/"%char = false /\ Py.is_space c = false.

(** [k] is parsed (line 103) from an [image_*.webp] name of the listing. *)
Definition parsed_index (dir : list entry) (k : Z) : Prop :=
  exists f, In f (map e_name dir) /\ is_image_name f = true /\ parse_index f = Some k.

(** A thread past line 50 carries a consumed stream, and no thread ever
    gets to line 62. *)
Definition pc_no_success (p : pc) : Prop :=
  match p with
  | PCheck _ _ s | POpen _ _ s | PWrite _ _ s => consumed s = true
  | PAdd _ => False
  | PStart => True
  | PDone b => b = false
  end.

Definition pool_no_success (ts : pool) : Prop :=
  Forall (fun tp => pc_no_success (snd tp)) ts.

Definition all_done (ts : pool) : Prop := Forall (fun tp => is_done (snd tp) = true) ts.

(** How many atomic steps a thread at [p] may still take. *)
Definition rank (p : pc) : nat :=
  match p with
  | PStart => 5
  | PCheck _ _ _ => 4
  | POpen _ _ _ => 3
  | PWrite _ _ _ => 2
  | PAdd _ => 1
  | PDone _ => 0
  end.

(** ** Sample inputs *)
Definition out_folder : string := "out".
Definition ok_response (data : list byte) : response := mk_response 200 [] data false.
Definition task_at (i : Z) (n : net_result) : task := mk_task image_url out_folder i n.
Definition empty_world : world := mk_world [] [].
Definition any_path (p : string) : bool := true.
Definition dquote : string := String (ascii_of_nat 34) EmptyString.
(** An injective stand-in for the hex digest, never empty. *)
Definition toy_sha (data : list byte) : string :=
  String "h"%char (string_of_list_ascii (map ascii_of_byte data)).

(** * Properties *)

(** ** Helper lemmas *)

Lemma set_mem_In (h : string) (s : list string) : set_mem h s = true <-> In h s.
Proof.
  unfold set_mem; rewrite existsb_exists; split.
  - intros [x [Hx Heq]]; apply String.eqb_eq in Heq; subst; exact Hx.
  - intros Hin; exists h; split; [exact Hin | apply String.eqb_refl].
Qed.

Lemma In_set_add (x h : string) (s : list string) : In x (set_add h s) <-> x = h \/ In x s.
Proof.
  unfold set_add; destruct (set_mem h s) eqn:E.
  - apply set_mem_In in E; split; [tauto | intros [->|H]; assumption].
  - rewrite in_app_iff; simpl; intuition.
Qed.

Lemma incl_set_add (h : string) (s : list string) : incl s (set_add h s).
Proof. intros x Hx; apply In_set_add; auto. Qed.

(** The stream handed from line 50 to line 58 is consumed. *)
Lemma fetch_phase_consumed (sha : list byte -> string) (t : task) fp h s :
  fetch_phase sha t = Ok (PCheck fp h s) -> consumed s = true.
Proof.
  unfold fetch_phase, iter_content; simpl.
  destruct (t_net t) as [e|r]; [discriminate|].
  destruct (raise_for_status r); [discriminate|].
  destruct (body_breaks r); intros E; inversion E; reflexivity.
Qed.

Lemma fetch_phase_shape (sha : list byte -> string) (t : task) :
  (exists e, fetch_phase sha t = Raise e)
  \/ exists r, t_net t = NetResponse r /\ raise_for_status r = None /\ body_breaks r = false
       /\ fetch_phase sha t =
          Ok (PCheck (Py.join (t_folder t) (derive_filename (t_i t) (headers r)))
                     (sha (body r)) (mk_stream r true)).
Proof.
  unfold fetch_phase, iter_content; simpl.
  destruct (t_net t) as [e|r]; [left; eauto|].
  destruct (raise_for_status r) as [e|] eqn:Hr; [left; eauto|].
  destruct (body_breaks r) eqn:Hb; [left; eauto|].
  right; exists r; auto.
Qed.

(** [download_image] unfolded: after the fetch, the duplicate check, the
    [open] and the second [iter_content]. *)
Lemma download_image_eq (sha : list byte -> string) (can_open : string -> bool) t w :
  download_image sha can_open t w =
  match fetch_phase sha t with
  | Ok (PCheck fp h s) =>
      if set_mem h (hashes w) then (false, w)
      else if can_open fp then
        match iter_content s with
        | IterRaise _ => (false, mk_world (fs_put fp [] (fs w)) (hashes w))
        | IterChunks data (Some _) _ =>
            (false, mk_world (fs_put fp data (fs_put fp [] (fs w))) (hashes w))
        | IterChunks data None _ =>
            (true, mk_world (fs_put fp data (fs_put fp [] (fs w)))
                            (set_add h (hashes w)))
        end
      else (false, w)
  | _ => (false, w)
  end.
Proof.
  destruct (fetch_phase_shape sha t) as [[e He] | [r [Hn [Hr [Hb He]]]]].
  - unfold download_image, run_thread, step, try_step; rewrite He.
    cbv beta iota. destruct e; reflexivity.
  - unfold download_image, run_thread, step, try_step; rewrite He.
    cbv beta iota.
    destruct (set_mem _ _); [reflexivity|].
    destruct (can_open _); reflexivity.
Qed.

(** [download_image] never returns [True]: line 58 iterates the response a
    second time, the stream is consumed, so [StreamConsumedError] is raised
    after [open(file_path, 'wb')] and before [existing_hashes.add]. *)
Lemma download_image_never_true (sha : list byte -> string) (can_open : string -> bool) t w :
  fst (download_image sha can_open t w) = false.
Proof.
  rewrite download_image_eq.
  destruct (fetch_phase sha t) as [p|e] eqn:Hf; [|reflexivity].
  destruct p; try reflexivity.
  apply fetch_phase_consumed in Hf.
  destruct (set_mem _ _); [reflexivity|].
  destruct (can_open _); [|reflexivity].
  unfold iter_content; rewrite Hf; reflexivity.
Qed.

Lemma hash_entry_In (sha : list byte -> string) (dir : list entry) :
  forall acc h, In h (fold_left (hash_entry sha) dir acc) <->
    In h acc \/ exists e, In e dir /\ e_is_file e = true
                          /\ calculate_sha256 sha e = Some h /\ h <> "".
Proof.
  induction dir as [|e dir IH]; intros acc h; simpl.
  - split; [tauto | intros [H | [e [[] _]]]; exact H].
  - rewrite IH; unfold hash_entry; split.
    + intros [Hacc | [e' [Hin Rest]]]; [|right; exists e'; tauto].
      destruct (e_is_file e) eqn:Ef; [|tauto].
      destruct (calculate_sha256 sha e) as [hv|] eqn:Ec; [|tauto].
      destruct (String.eqb hv "") eqn:Ee; simpl in Hacc; [tauto|].
      apply In_set_add in Hacc; destruct Hacc as [-> | Hacc]; [|tauto].
      right; exists e; repeat split; auto; apply String.eqb_neq; exact Ee.
    + intros [Hacc | [e' [[<- | Hin] [Hf [Hc Hne]]]]].
      * left; destruct (e_is_file e); [|exact Hacc].
        destruct (calculate_sha256 sha e); [|exact Hacc].
        destruct (negb _); [apply incl_set_add|]; exact Hacc.
      * left; rewrite Hf, Hc.
        apply String.eqb_neq in Hne; rewrite Hne; simpl; apply In_set_add; auto.
      * right; exists e'; auto.
Qed.

Lemma scan_hashes_In (sha : list byte -> string) (dir : list entry) (h : string) :
  In h (scan_hashes sha dir) <->
  exists e, In e dir /\ e_is_file e = true /\ calculate_sha256 sha e = Some h /\ h <> "".
Proof.
  unfold scan_hashes; rewrite hash_entry_In; simpl; tauto.
Qed.

Lemma collect_index_In (files : list string) :
  forall acc k, In k (fold_left collect_index files acc) <->
    In k acc \/ exists f, In f files /\ parse_index f = Some k.
Proof.
  induction files as [|f files IH]; intros acc k; simpl.
  - split; [tauto | intros [H | [f [[] _]]]; exact H].
  - rewrite IH; unfold collect_index; split.
    + intros [Hacc | [f' [Hin Hp]]]; [|right; exists f'; tauto].
      destruct (parse_index f) as [index|] eqn:Ep; [|tauto].
      apply in_app_iff in Hacc; destruct Hacc as [Hacc | [<- | []]]; [tauto|].
      right; exists f; auto.
    + intros [Hacc | [f' [[<- | Hin] Hp]]].
      * left; destruct (parse_index f); [apply in_app_iff; auto | exact Hacc].
      * left; rewrite Hp; apply in_app_iff; simpl; auto.
      * right; exists f'; auto.
Qed.

(** Python's [max] over a non-empty list of ints. *)
Lemma fold_max_spec (xs : list Z) :
  forall x, In (fold_left Z.max xs x) (x :: xs)
            /\ forall y, In y (x :: xs) -> y <= fold_left Z.max xs x.
Proof.
  induction xs as [|a xs IH]; intros x; simpl.
  - split; [auto | intros y [<- | []]; lia].
  - destruct (IH (Z.max x a)) as [Hin Hub]; split.
    + destruct Hin as [Hm | Hin]; [|simpl; auto].
      rewrite <- Hm; destruct (Z.max_spec x a) as [[_ ->] | [_ ->]]; simpl; auto.
    + intros y Hy.
      assert (Hxa : x <= Z.max x a /\ a <= Z.max x a) by lia.
      destruct Hy as [<- | [<- | Hy]].
      * specialize (Hub (Z.max x a) (or_introl eq_refl)); lia.
      * specialize (Hub (Z.max x a) (or_introl eq_refl)); lia.
      * apply Hub; simpl; auto.
Qed.

Lemma string_append_assoc (a b c : string) : a ++ b ++ c = (a ++ b) ++ c.
Proof. induction a as [|x a IH]; simpl; [reflexivity | rewrite IH; reflexivity]. Qed.

(** ** The claims *)

(** C1 (does not hold). Two tasks receiving identical bytes, a fresh output
    folder, the default pool of four threads. After each thread's first two
    steps both have passed the not-present check of line 52 with the same
    digest (both are about to [open] their file), and when both threads are
    done both [out/image_1.webp] and [out/image_2.webp] exist. *)
Theorem C1_identical_content_written_twice (sha : list byte -> string) :
  let nets := [NetResponse (ok_response [x41]); NetResponse (ok_response [x41])] in
  (exists t1 t2 fp1 fp2 h s1 s2 w,
     resume_run sha any_path 4 out_folder [] [] nets [0; 1; 0; 1]%nat
     = Some ([(t1, POpen fp1 h s1); (t2, POpen fp2 h s2)], w))
  /\ (exists ts w,
        resume_run sha any_path 4 out_folder [] [] nets [0; 1; 0; 1; 0; 1; 0; 1]%nat
        = Some (ts, w)
        /\ fs_get (fs w) "out/image_1.webp" = Some []
        /\ fs_get (fs w) "out/image_2.webp" = Some []).
Proof.
  intros nets; split.
  - do 8 eexists; cbv; reflexivity.
  - do 2 eexists; split; [cbv; reflexivity | split; cbv; reflexivity].
Qed.

(** C2 (does not hold). A fetch that succeeds at the network level, whose
    digest is not in the set and whose path can be opened, ends with
    [download_image] returning [False], an empty file at the derived path
    and the digest set unchanged: the write loop's [iter_content] raises
    [StreamConsumedError]. *)
Theorem C2_fresh_fetch_not_saved (sha : list byte -> string) (can_open : string -> bool)
  (t : task) (w : world) (r : response)
  (Hnet : t_net t = NetResponse r) (Hok : raise_for_status r = None)
  (Hbody : body_breaks r = false) (Hnew : ~ In (sha (body r)) (hashes w))
  (Hopen : can_open (Py.join (t_folder t) (derive_filename (t_i t) (headers r))) = true) :
  download_image sha can_open t w
  = (false, mk_world (fs_put (Py.join (t_folder t) (derive_filename (t_i t) (headers r))) [] (fs w))
                     (hashes w)).
Proof.
  rewrite download_image_eq.
  destruct (fetch_phase_shape sha t) as [[e He] | [r' [Hn [Hr [Hb He]]]]].
  - exfalso; revert He; unfold fetch_phase, iter_content; simpl.
    rewrite Hnet, Hok, Hbody; discriminate.
  - rewrite Hnet in Hn; inversion Hn; subst r'.
    rewrite He.
    destruct (set_mem (sha (body r)) (hashes w)) eqn:Em.
    + apply set_mem_In in Em; contradiction.
    + rewrite Hopen; reflexivity.
Qed.

Lemma C2_fresh_fetch_not_saved_witness :
  download_image toy_sha any_path (task_at 1 (NetResponse (ok_response [x41]))) empty_world
  = (false, mk_world (fs_put "out/image_1.webp" [] []) []).
Proof.
  assert (H := C2_fresh_fetch_not_saved toy_sha any_path
                 (task_at 1 (NetResponse (ok_response [x41]))) empty_world
                 (ok_response [x41]) eq_refl eq_refl eq_refl (fun H => H) eq_refl).
  exact H.
Defined.

(** C3. An output folder whose listing is exactly [image_3.webp],
    [image_7.webp] and [not_a_number.webp] (in any order), all readable
    regular files: the scan gives [start_index = 8] and the initial digest
    set holds exactly the digests of the three files. (A hex digest is never
    the empty string.) *)
Theorem C3_scan_three_files (sha : list byte -> string) (c3 c7 cn : list byte)
  (dir : list entry)
  (Hdir : forall e, In e dir <->
            e = mk_entry "image_3.webp" true (Some c3)
            \/ e = mk_entry "image_7.webp" true (Some c7)
            \/ e = mk_entry "not_a_number.webp" true (Some cn))
  (H3 : sha c3 <> "") (H7 : sha c7 <> "") (Hn : sha cn <> "") :
  start_index dir = 8
  /\ (forall h, In h (scan_hashes sha dir) <-> h = sha c3 \/ h = sha c7 \/ h = sha cn).
Proof.
  split.
  - unfold start_index.
    remember (filter is_image_name (map e_name dir)) as ef eqn:Eef.
    assert (Hef : forall f, In f ef <-> f = "image_3.webp" \/ f = "image_7.webp").
    { intro f; subst ef; rewrite filter_In, in_map_iff; split.
      - intros [[e [He Hin]] Hp]; apply Hdir in Hin.
        destruct Hin as [-> | [-> | ->]]; simpl in He; subst f; auto.
        vm_compute in Hp; discriminate.
      - intros [-> | ->]; split; try reflexivity.
        + exists (mk_entry "image_3.webp" true (Some c3)); split; [reflexivity|].
          apply Hdir; auto.
        + exists (mk_entry "image_7.webp" true (Some c7)); split; [reflexivity|].
          apply Hdir; auto. }
    destruct ef as [|f0 ef'].
    + exfalso; apply (proj2 (Hef "image_3.webp")); auto.
    + cbv zeta.
      assert (Hidx : forall k, In k (fold_left collect_index (f0 :: ef') []) <-> k = 3 \/ k = 7).
      { intro k; rewrite collect_index_In; simpl; split.
        - intros [[] | [f [Hin Hp]]].
          apply Hef in Hin; destruct Hin as [-> | ->]; vm_compute in Hp; inversion Hp; auto.
        - intros [-> | ->]; right.
          + exists "image_3.webp"; split; [apply Hef; auto | reflexivity].
          + exists "image_7.webp"; split; [apply Hef; auto | reflexivity]. }
      destruct (fold_left collect_index (f0 :: ef') []) as [|x xs].
      * exfalso; apply (proj2 (Hidx 7)); auto.
      * destruct (fold_max_spec xs x) as [Hin Hub].
        apply Hidx in Hin.
        assert (7 <= fold_left Z.max xs x) by (apply Hub, Hidx; auto).
        destruct Hin; lia.
  - intro h; rewrite scan_hashes_In; split.
    + intros [e [Hin [Hf [Hc Hne]]]].
      apply Hdir in Hin; destruct Hin as [-> | [-> | ->]];
        unfold calculate_sha256 in Hc; simpl in Hc; inversion Hc; auto.
    + intros [-> | [-> | ->]].
      * exists (mk_entry "image_3.webp" true (Some c3)); repeat split; auto; apply Hdir; auto.
      * exists (mk_entry "image_7.webp" true (Some c7)); repeat split; auto; apply Hdir; auto.
      * exists (mk_entry "not_a_number.webp" true (Some cn)); repeat split; auto; apply Hdir; auto.
Qed.

Lemma C3_scan_three_files_witness :
  start_index [mk_entry "not_a_number.webp" true (Some [x00]);
               mk_entry "image_7.webp" true (Some [x07]);
               mk_entry "image_3.webp" true (Some [x03])] = 8
  /\ (forall h, In h (scan_hashes toy_sha
                        [mk_entry "not_a_number.webp" true (Some [x00]);
                         mk_entry "image_7.webp" true (Some [x07]);
                         mk_entry "image_3.webp" true (Some [x03])])
                <-> h = toy_sha [x03] \/ h = toy_sha [x07] \/ h = toy_sha [x00]).
Proof.
  apply (C3_scan_three_files toy_sha [x03] [x07] [x00]).
  - intro e; simpl; split.
    + intros [<- | [<- | [<- | []]]]; auto.
    + intros [-> | [-> | ->]]; auto.
  - discriminate.
  - discriminate.
  - discriminate.
Defined.

(** C4 (does not hold as stated). The header-derived name is kept for a
    response whose Content-Type is [image/webp; charset=binary], which is
    not exactly [image/webp]. *)
Lemma C4_non_exact_content_type_keeps_header_name :
  let hs := [("Content-Disposition", "attachment; filename=" ++ dquote ++ "pic.png" ++ dquote);
             ("Content-Type", "image/webp; charset=binary")] in
  derive_filename 1 hs = "pic_1.webp"
  /\ derive_filename 1 hs <> default_name 1
  /\ header_get hs "Content-Type" <> Some "image/webp".
Proof.
  intros hs; split; [|split]; vm_compute; [reflexivity | discriminate | discriminate].
Qed.

(** C4, amended. The output name always ends in [.webp]; it is the
    header-derived [<root>_<i>.webp] (root of the [filename=] value of
    [Content-Disposition], quotes stripped, extension removed) exactly when
    the lower-cased [Content-Type] contains [image/webp] and the
    [Content-Disposition] header has a [filename=]; otherwise it is
    [image_<i>.webp]. *)
Theorem C4_filename_rule (i : Z) (hs : list (string * string)) :
  let ct := match header_get hs "Content-Type" with Some v => v | None => "" end in
  (exists root, derive_filename i hs = root ++ ".webp")
  /\ derive_filename i hs =
     if Py.contains "image/webp" (Py.lower ct) then
       match header_get hs "content-disposition" with
       | Some cd =>
           match Py.find cd "filename=" with
           | Some k =>
               Py.splitext_root (Py.strip_char (ascii_of_nat 34) (Py.drop (k + 9) cd))
               ++ "_" ++ Py.str_of_int i ++ ".webp"
           | None => default_name i
           end
       | None => default_name i
       end
     else default_name i.
Proof.
  intros ct.
  assert (Hrule : derive_filename i hs =
     if Py.contains "image/webp" (Py.lower ct) then
       match header_get hs "content-disposition" with
       | Some cd =>
           match Py.find cd "filename=" with
           | Some k =>
               Py.splitext_root (Py.strip_char (ascii_of_nat 34) (Py.drop (k + 9) cd))
               ++ "_" ++ Py.str_of_int i ++ ".webp"
           | None => default_name i
           end
       | None => default_name i
       end
     else default_name i).
  { unfold derive_filename; fold ct.
    destruct (Py.contains "image/webp" (Py.lower ct)); simpl; [|reflexivity].
    destruct (header_get hs "content-disposition") as [cd|]; [|reflexivity].
    destruct (Py.find cd "filename="); reflexivity. }
  split; [|exact Hrule].
  rewrite Hrule; unfold default_name.
  destruct (Py.contains _ _).
  - destruct (header_get hs "content-disposition") as [cd|].
    + destruct (Py.find cd "filename=").
      * eexists; rewrite !string_append_assoc; reflexivity.
      * eexists; rewrite string_append_assoc; reflexivity.
    + eexists; rewrite string_append_assoc; reflexivity.
  - eexists; rewrite string_append_assoc; reflexivity.
Qed.

(** Every pair returned by the prompts has a positive thread count. *)
Lemma read_threads_positive (lines : list string) :
  forall n rest, read_threads lines = Some (n, rest) -> 0 < n.
Proof.
  induction lines as [|l lines IH]; simpl; intros n rest H; [discriminate|].
  destruct (Py.int l) as [k|]; [|eapply IH; eauto].
  destruct (0 <? k) eqn:Hk; [|eapply IH; eauto].
  inversion H; subst; apply Z.ltb_lt; exact Hk.
Qed.

Lemma main_args_threads_positive (lines : list string) (count num_threads : Z) :
  main_args lines = Some (count, num_threads) -> 0 < num_threads.
Proof.
  unfold main_args.
  destruct (read_count lines) as [[c rest]|]; [|discriminate].
  destruct (read_threads rest) as [[n r]|] eqn:Ht; [|discriminate].
  intros H; inversion H; subst; eapply read_threads_positive; eauto.
Qed.

(** C5 (does not hold). The count prompt accepts [0] and [-3]: only the
    thread prompt checks positivity (line 153). *)
Theorem C5_count_not_checked_positive :
  main_args ["0"; "4"] = Some (0, 4) /\ main_args ["-3"; "0"; "2"] = Some (-3, 2).
Proof. split; vm_compute; reflexivity. Qed.

(** C6 (does not hold as stated). A final status outside 400-599, here 304
    Not Modified, passes [raise_for_status]: the empty body is hashed, the
    file [out/image_1.webp] is created, and [download_image] returns
    [False]. *)
Lemma C6_status_304_creates_file :
  download_image toy_sha any_path (task_at 1 (NetResponse (mk_response 304 [] [] false))) empty_world
  = (false, mk_world [("out/image_1.webp", [])] []).
Proof. cbv; reflexivity. Qed.

Lemma raise_for_status_4xx_5xx (r : response) :
  400 <= status r < 600 -> raise_for_status r = Some HTTPError.
Proof.
  intros [Hl Hu]; unfold raise_for_status.
  apply Z.leb_le in Hl; apply Z.ltb_lt in Hu; rewrite Hl, Hu; reflexivity.
Qed.

(** C6, amended. When [requests.get] raises, when the final status is one
    [raise_for_status] rejects (400-599), or when the body read breaks off,
    [download_image] returns [False] and neither the folder nor the digest
    set changes. *)
Theorem C6_transport_or_error_status_no_write (sha : list byte -> string)
  (can_open : string -> bool) (t : task) (w : world)
  (Hfail : (exists e, t_net t = NetRaise e)
           \/ exists r, t_net t = NetResponse r
                        /\ (400 <= status r < 600 \/ body_breaks r = true)) :
  download_image sha can_open t w = (false, w).
Proof.
  rewrite download_image_eq.
  assert (Hf : exists e, fetch_phase sha t = Raise e).
  { unfold fetch_phase.
    destruct Hfail as [[e He] | [r [Hr [Hs | Hb]]]]; rewrite ?He, ?Hr.
    - eauto.
    - rewrite raise_for_status_4xx_5xx by exact Hs; eauto.
    - destruct (raise_for_status r); [eauto|].
      unfold iter_content; simpl; rewrite Hb; eauto. }
  destruct Hf as [e ->]; reflexivity.
Qed.

Lemma C6_transport_or_error_status_no_write_witness :
  download_image toy_sha any_path (task_at 1 (NetResponse (mk_response 404 [] [x41] false)))
                 empty_world = (false, empty_world).
Proof.
  apply C6_transport_or_error_status_no_write.
  right; eexists; split; [reflexivity | left; simpl; lia].
Defined.

(** C7. A fetch that reaches line 52 with a digest already in the set: the
    call returns [False] with the folder and the digest set unchanged,
    whatever [open] would do. *)
Theorem C7_duplicate_discarded (sha : list byte -> string) (can_open : string -> bool)
  (t : task) (w : world) (r : response)
  (Hnet : t_net t = NetResponse r) (Hok : raise_for_status r = None)
  (Hbody : body_breaks r = false) (Hdup : In (sha (body r)) (hashes w)) :
  download_image sha can_open t w = (false, w).
Proof.
  rewrite download_image_eq.
  destruct (fetch_phase_shape sha t) as [[e He] | [r' [Hn [Hr [Hb He]]]]].
  - rewrite He; reflexivity.
  - rewrite Hnet in Hn; inversion Hn; subst r'.
    rewrite He; apply set_mem_In in Hdup; rewrite Hdup; reflexivity.
Qed.

Lemma C7_duplicate_discarded_witness :
  download_image toy_sha any_path (task_at 2 (NetResponse (ok_response [x41])))
                 (mk_world [("out/image_1.webp", [x41])] [toy_sha [x41]])
  = (false, mk_world [("out/image_1.webp", [x41])] [toy_sha [x41]]).
Proof.
  apply (C7_duplicate_discarded toy_sha any_path _ _ (ok_response [x41]));
    [reflexivity | reflexivity | reflexivity | simpl; auto].
Defined.

(** ** The digest set and the folder along a run of the pool *)

Lemma fs_get_put (fs0 : files) (p q : string) (c : list byte) :
  fs_get (fs_put p c fs0) q = if String.eqb p q then Some c else fs_get fs0 q.
Proof.
  induction fs0 as [|[p' c'] r IH]; simpl.
  - reflexivity.
  - destruct (String.eqb p' p) eqn:E; simpl.
    + apply String.eqb_eq in E; subst p'.
      destruct (String.eqb p q); reflexivity.
    + rewrite IH. destruct (String.eqb p' q) eqn:E'; [|reflexivity].
      apply String.eqb_eq in E'; subst q.
      rewrite String.eqb_sym, E; reflexivity.
Qed.

Lemma fs_get_put_new (fs0 : files) (p q : string) (c c' : list byte) :
  fs_get (fs_put p c fs0) q = Some c' -> fs_get fs0 q = Some c' \/ c' = c.
Proof.
  rewrite fs_get_put; destruct (String.eqb p q); [intros H; inversion H; auto | auto].
Qed.

Section Step.

Variable sha : list byte -> string.
Variable can_open : string -> bool.

Lemma step_pc_from (t : task) (p : pc) (w : world) :
  pc_from sha t p -> pc_from sha t (fst (step sha can_open t p w)).
Proof.
  unfold step; destruct p as [| fp h s | fp h s | fp h s | h | b]; simpl; intros Hp.
  - destruct (fetch_phase_shape sha t) as [[e He] | [r [Hn [Hr [Hb He]]]]];
      rewrite He; simpl; [exact I | exists r; auto].
  - destruct (set_mem h (hashes w)); simpl; [exact I | exact Hp].
  - destruct (can_open fp); simpl; [exact Hp | exact I].
  - destruct (iter_content s) as [e | data [e|] s']; simpl; try exact I.
    destruct Hp as [r [Hn [Hh _]]]; exists r; auto.
  - exact I.
  - exact I.
Qed.

Lemma step_hashes_incl (t : task) (p : pc) (w : world) :
  incl (hashes w) (hashes (snd (step sha can_open t p w))).
Proof.
  unfold step; destruct p as [| fp h s | fp h s | fp h s | h | b]; simpl.
  - destruct (fetch_phase sha t); apply incl_refl.
  - destruct (set_mem h (hashes w)); apply incl_refl.
  - destruct (can_open fp); apply incl_refl.
  - destruct (iter_content s) as [e | data [e|] s']; apply incl_refl.
  - apply incl_set_add.
  - apply incl_refl.
Qed.

Lemma step_hashes_new (t : task) (p : pc) (w : world) (h : string) :
  pc_from sha t p ->
  In h (hashes (snd (step sha can_open t p w))) ->
  In h (hashes w) \/ exists r, t_net t = NetResponse r /\ h = sha (body r).
Proof.
  unfold step; destruct p as [| fp h0 s | fp h0 s | fp h0 s | h0 | b]; simpl; intros Hp.
  - destruct (fetch_phase sha t); auto.
  - destruct (set_mem h0 (hashes w)); auto.
  - destruct (can_open fp); auto.
  - destruct (iter_content s) as [e | data [e|] s']; auto.
  - intros Hin; apply In_set_add in Hin; destruct Hin as [-> | Hin]; [right; exact Hp | auto].
  - auto.
Qed.

Lemma step_fs_new (t : task) (p : pc) (w : world) (q : string) (c : list byte) :
  pc_from sha t p ->
  fs_get (fs (snd (step sha can_open t p w))) q = Some c ->
  fs_get (fs w) q = Some c \/ c = [] \/ exists r, t_net t = NetResponse r /\ c = body r.
Proof.
  unfold step; destruct p as [| fp h0 s | fp h0 s | fp h0 s | h0 | b]; simpl; intros Hp.
  - destruct (fetch_phase sha t); auto.
  - destruct (set_mem h0 (hashes w)); auto.
  - destruct (can_open fp); simpl; [|auto].
    intros H; apply fs_get_put_new in H; tauto.
  - destruct Hp as [r [Hn [_ Hs]]].
    unfold iter_content.
    destruct (consumed s); simpl; [auto|].
    destruct (body_breaks (s_resp s)); simpl;
      intros H; apply fs_get_put_new in H; destruct H as [H | ->]; auto;
      right; right; exists r; rewrite Hs; auto.
  - auto.
  - auto.
Qed.

End Step.

Lemma nth_error_decomp {A : Type} (l : list A) (j : nat) (x : A) :
  nth_error l j = Some x -> l = (firstn j l ++ x :: skipn (S j) l)%list.
Proof.
  revert l; induction j as [|j IH]; intros [|a l] H; simpl in *; try discriminate.
  - inversion H; reflexivity.
  - f_equal; apply IH; exact H.
Qed.

Section Pool.

Variable sha : list byte -> string.
Variable can_open : string -> bool.

Lemma pool_step_inv (m j : nat) (ts : pool) (w : world) (ts' : pool) (w' : world) :
  pool_step sha can_open m j ts w = Some (ts', w') ->
  pool_from sha ts ->
  map fst ts' = map fst ts /\ pool_from sha ts' /\ step_effects sha ts w w'.
Proof.
  unfold pool_step.
  destruct (nth_error ts j) as [[t p]|] eqn:Hn; [|discriminate].
  destruct (is_done p); [discriminate|].
  destruct (_ || _)%bool; [|discriminate].
  destruct (step sha can_open t p w) as [p' w1] eqn:Es.
  intros H HF; inversion H; subst ts' w'; clear H.
  pose proof (nth_error_decomp _ _ _ Hn) as Hd.
  assert (Hin : In t (map fst ts)).
  { apply in_map_iff; exists (t, p); split; [reflexivity | eapply nth_error_In; eauto]. }
  assert (Hp : pc_from sha t p).
  { unfold pool_from in HF; rewrite Forall_forall in HF.
    apply (HF (t, p)); eapply nth_error_In; eauto. }
  replace w1 with (snd (step sha can_open t p w)) by (rewrite Es; reflexivity).
  replace p' with (fst (step sha can_open t p w)) by (rewrite Es; reflexivity).
  split; [|split; [|split; [|split]]].
  - transitivity (map fst (firstn j ts ++ (t, p) :: skipn (S j) ts)%list).
    + rewrite !map_app; reflexivity.
    + rewrite <- Hd; reflexivity.
  - unfold pool_from in *; rewrite Hd in HF.
    apply Forall_app in HF; destruct HF as [H1 H2]; inversion H2; subst.
    apply Forall_app; split; [exact H1|].
    constructor; [simpl; apply step_pc_from; exact Hp | assumption].
  - apply step_hashes_incl.
  - intros h Hh; destruct (step_hashes_new sha can_open t p w h Hp Hh) as [H | [r [Hr ->]]].
    + auto.
    + right; exists t, r; auto.
  - intros q c Hq; destruct (step_fs_new sha can_open t p w q c Hp Hq) as [H | [H | [r [Hr ->]]]].
    + auto.
    + auto.
    + right; right; exists t, r; auto.
Qed.

Lemma run_sched_inv (m : nat) (sched : list nat) :
  forall ts w ts' w', run_sched sha can_open m sched ts w = Some (ts', w') ->
  pool_from sha ts ->
  map fst ts' = map fst ts /\ pool_from sha ts' /\ step_effects sha ts w w'.
Proof.
  induction sched as [|j sched IH]; intros ts w ts' w' Hrun HF; simpl in Hrun.
  - inversion Hrun; subst; split; [reflexivity | split; [exact HF|]].
    split; [apply incl_refl | split; intros; auto].
  - destruct (pool_step sha can_open m j ts w) as [[ts1 w1]|] eqn:Hs; [|discriminate].
    destruct (pool_step_inv _ _ _ _ _ _ Hs HF) as [Hm1 [HF1 [Hi1 [Hh1 Hf1]]]].
    destruct (IH _ _ _ _ Hrun HF1) as [Hm2 [HF2 [Hi2 [Hh2 Hf2]]]].
    rewrite Hm1 in Hh2, Hf2.
    split; [congruence | split; [exact HF2|]].
    split; [eapply incl_tran; eauto | split].
    + intros h Hh; destruct (Hh2 h Hh) as [H | H]; [apply Hh1; exact H | auto].
    + intros q c Hq; destruct (Hf2 q c Hq) as [H | H]; [apply Hf1; exact H | auto].
Qed.

Lemma run_sched_app (m : nat) (s1 s2 : list nat) :
  forall ts w, run_sched sha can_open m (s1 ++ s2) ts w =
  match run_sched sha can_open m s1 ts w with
  | Some (ts1, w1) => run_sched sha can_open m s2 ts1 w1
  | None => None
  end.
Proof.
  induction s1 as [|j s1 IH]; intros ts w; simpl; [reflexivity|].
  destruct (pool_step sha can_open m j ts w) as [[ts1 w1]|]; [apply IH | reflexivity].
Qed.

End Pool.

Lemma tasks_of_from (sha : list byte -> string) (folder : string) (nets : list net_result) :
  forall i, pool_from sha (tasks_of folder i nets).
Proof.
  induction nets as [|n nets IH]; intros i; simpl; constructor; [exact I | apply IH].
Qed.

Lemma tasks_of_nets (folder : string) (nets : list net_result) :
  forall i, map t_net (map fst (tasks_of folder i nets)) = nets.
Proof.
  induction nets as [|n nets IH]; intros i; simpl; [reflexivity | rewrite IH; reflexivity].
Qed.

Lemma tasks_of_In (folder : string) (nets : list net_result) (i : Z) (t : task) :
  In t (map fst (tasks_of folder i nets)) -> In (t_net t) nets.
Proof.
  intros H; rewrite <- (tasks_of_nets folder nets i); apply in_map; exact H.
Qed.

(** C9. Along any run of [download_picre_varied_images_resume]: the set
    starts as the digests of the readable regular files of the folder; it
    only grows (the set after any prefix of the schedule is contained in the
    set after the whole schedule); everything it gains is the digest of a
    fetched body; and nothing but response bytes (or the empty file of an
    [open]) is ever written to disk, so the set itself is never stored. *)
Theorem C9_digest_set_grows_only (sha : list byte -> string) (can_open : string -> bool)
  (m : nat) (folder : string) (dir : list entry) (fs0 : files)
  (nets : list net_result) (sched : list nat) (ts : pool) (w : world)
  (Hrun : resume_run sha can_open m folder dir fs0 nets sched = Some (ts, w)) :
  (forall h, In h (scan_hashes sha dir) <->
     exists e, In e dir /\ e_is_file e = true /\ calculate_sha256 sha e = Some h /\ h <> "")
  /\ (forall s1 s2 ts1 w1, sched = (s1 ++ s2)%list ->
        resume_run sha can_open m folder dir fs0 nets s1 = Some (ts1, w1) ->
        incl (scan_hashes sha dir) (hashes w1) /\ incl (hashes w1) (hashes w))
  /\ (forall h, In h (hashes w) ->
        In h (scan_hashes sha dir) \/ exists r, In (NetResponse r) nets /\ h = sha (body r))
  /\ (forall q c, fs_get (fs w) q = Some c ->
        fs_get fs0 q = Some c \/ c = [] \/ exists r, In (NetResponse r) nets /\ c = body r).
Proof.
  pose proof (tasks_of_from sha folder nets (start_index dir)) as HF0.
  unfold resume_run in *.
  destruct (run_sched_inv sha can_open m sched _ _ _ _ Hrun HF0)
    as [_ [_ [_ [Hh Hf]]]].
  split; [intro h; apply scan_hashes_In | split; [| split]].
  - intros s1 s2 ts1 w1 -> H1.
    rewrite run_sched_app, H1 in Hrun.
    destruct (run_sched_inv sha can_open m s1 _ _ _ _ H1 HF0) as [Hm1 [HF1 [Hi1 _]]].
    destruct (run_sched_inv sha can_open m s2 _ _ _ _ Hrun HF1) as [_ [_ [Hi2 _]]].
    split; assumption.
  - intros h Hin; destruct (Hh h Hin) as [H | [t [r [Ht [Hr ->]]]]]; [auto|].
    right; exists r; split; [rewrite <- Hr; eapply tasks_of_In; eauto | reflexivity].
  - intros q c Hq; destruct (Hf q c Hq) as [H | [H | [t [r [Ht [Hr ->]]]]]]; [auto | auto |].
    right; right; exists r; split; [rewrite <- Hr; eapply tasks_of_In; eauto | reflexivity].
Qed.

Lemma C9_digest_set_grows_only_witness :
  exists ts w,
    resume_run toy_sha any_path 4 out_folder [] []
      [NetResponse (ok_response [x41]); NetResponse (ok_response [x41])]
      [0; 1; 0; 1; 0; 1; 0; 1]%nat = Some (ts, w)
    /\ incl (scan_hashes toy_sha []) (hashes w)
    /\ (forall h, In h (hashes w) ->
          In h (scan_hashes toy_sha []) \/
          exists r, In (NetResponse r) [NetResponse (ok_response [x41]); NetResponse (ok_response [x41])]
                    /\ h = toy_sha (body r)).
Proof.
  do 2 eexists; split; [cbv; reflexivity|].
  destruct (C9_digest_set_grows_only toy_sha any_path 4 out_folder [] []
              [NetResponse (ok_response [x41]); NetResponse (ok_response [x41])]
              [0; 1; 0; 1; 0; 1; 0; 1]%nat _ _ eq_refl) as [_ [Hpre [Hh _]]].
  split; [|exact Hh].
  apply (Hpre [0; 1; 0; 1; 0; 1; 0; 1]%nat [] _ _ eq_refl eq_refl).
Defined.

(** C10 (does not hold). The call returns a boolean and raises nothing,
    but it is [False] while a new file [out/image_1.webp] has appeared. *)
Theorem C10_false_with_new_file (sha : list byte -> string) :
  fs_get (fs empty_world) "out/image_1.webp" = None
  /\ download_image sha any_path (task_at 1 (NetResponse (ok_response [x41]))) empty_world
     = (false, mk_world [("out/image_1.webp", [])] []).
Proof. split; cbv; reflexivity. Qed.

(** C8. An empty output folder gives [start_index = 1] and an empty
    digest set. *)
Theorem C8_empty_folder_scan (sha : list byte -> string) :
  start_index [] = 1 /\ scan_hashes sha [] = [].
Proof. split; reflexivity. Qed.

(** Five steps take a thread from [PStart] to [PDone], so the fallback
    branch of [download_image] is never used. *)
Lemma run_thread_done (sha : list byte -> string) (can_open : string -> bool) t w :
  exists b w', run_thread sha can_open 5 t PStart w = (PDone b, w').
Proof.
  unfold run_thread, step, try_step.
  destruct (fetch_phase_shape sha t) as [[e He] | [r [Hn [Hr [Hb He]]]]];
    rewrite He; cbv beta iota; [eauto|].
  destruct (set_mem _ _); [eauto|].
  destruct (can_open _); simpl; eauto.
Qed.

(** The Python builtins on the inputs used above. *)
Example py_int_examples : Py.int "3" = Some 3 /\ Py.int " -1_0 " = Some (-10)
  /\ Py.int "a" = None /\ Py.int "" = None /\ Py.int "1__0" = None.
Proof. vm_compute. repeat split. Qed.

Example py_path_examples :
  Py.split "_"%char "image_3.webp" = ["image"; "3.webp"]
  /\ Py.splitext_root "pic.png" = "pic" /\ Py.splitext_root ".bashrc" = ".bashrc"
  /\ Py.splitext_root "a.b/c" = "a.b/c" /\ Py.endswith "image_3.webp" ".webp" = true
  /\ parse_index "image_7.webp" = Some 7 /\ parse_index "image_x.webp" = None.
Proof. vm_compute. repeat split. Qed.

(** * Further properties of the code *)

(** ** Decimal round trip: [int(f"{i}") == i] *)

Lemma digits_digit (c : ascii) (r : list ascii) (acc d : Z) (pd : bool) :
  Py.digit_val c = Some d -> Py.digits (c :: r) acc pd = Py.digits r (10 * acc + d) true.
Proof. intros H; simpl; rewrite H; reflexivity. Qed.

Ltac digit_step IH :=
  simpl list_ascii_of_string; cbn [Pos.of_uint_acc];
  erewrite digits_digit by reflexivity;
  rewrite <- IH; f_equal; simpl Z.of_nat; lia.

Lemma digits_uint_acc (u : Decimal.uint) :
  forall p, Py.digits (list_ascii_of_string (NilEmpty.string_of_uint u)) (Zpos p) true
            = Some (Zpos (Pos.of_uint_acc u p)).
Proof.
  induction u as [| u IH | u IH | u IH | u IH | u IH | u IH | u IH | u IH | u IH | u IH];
    intros p; [reflexivity | digit_step IH ..].
Qed.

Lemma digits_uint_zero (u : Decimal.uint) :
  Py.digits (list_ascii_of_string (NilEmpty.string_of_uint u)) 0 true
  = Some (Z.of_N (Pos.of_uint u)).
Proof.
  induction u as [| u IH | u | u | u | u | u | u | u | u | u]; [reflexivity | | ..];
    simpl list_ascii_of_string; erewrite digits_digit by reflexivity.
  1: exact IH.
  all: cbn [Pos.of_uint Z.of_N]; rewrite <- digits_uint_acc; f_equal; simpl Z.of_nat; lia.
Qed.

Lemma digits_first_digit (c : ascii) (r : list ascii) (acc : Z) :
  Py.digit_val c <> None -> Py.digits (c :: r) acc false = Py.digits (c :: r) acc true.
Proof. simpl; destruct (Py.digit_val c); [reflexivity | contradiction]. Qed.


Lemma uint_chars_plain (u : Decimal.uint) :
  Forall plain_char (list_ascii_of_string (NilEmpty.string_of_uint u)).
Proof.
  induction u; simpl; constructor; try assumption;
    unfold plain_char; vm_compute; repeat split.
Qed.

Lemma str_of_int_plain (z : Z) : Forall plain_char (list_ascii_of_string (Py.str_of_int z)).
Proof.
  unfold Py.str_of_int; destruct (Z.to_int z) as [u|u]; simpl.
  - apply uint_chars_plain.
  - constructor; [unfold plain_char; vm_compute; repeat split | apply uint_chars_plain].
Qed.

Lemma strip_spaces_id (l : list ascii) :
  Forall (fun c => Py.is_space c = false) l -> Py.strip_spaces l = l.
Proof.
  assert (Hd : forall l, Forall (fun c => Py.is_space c = false) l -> Py.drop_spaces l = l).
  { intros [|c r] H; [reflexivity|]; inversion H; subst; simpl.
    match goal with Hc : Py.is_space c = false |- _ => rewrite Hc end; reflexivity. }
  intros H; unfold Py.strip_spaces.
  rewrite (Hd l H), Hd; [apply rev_involutive | apply Forall_rev; exact H].
Qed.

Lemma Forall_plain_space (l : list ascii) :
  Forall plain_char l -> Forall (fun c => Py.is_space c = false) l.
Proof. apply Forall_impl; intros c [_ [_ [_ H]]]; exact H. Qed.

(** [int(f"{z}")] is [z] for every int. *)
Lemma py_int_str_of_int (z : Z) : Py.int (Py.str_of_int z) = Some z.
Proof.
  pose proof (Forall_plain_space _ (str_of_int_plain z)) as Hs.
  unfold Py.int; rewrite (strip_spaces_id _ Hs).
  unfold Py.str_of_int in *.
  destruct z as [|p|p]; [reflexivity| |].
  - simpl Z.to_int in *; unfold NilEmpty.string_of_int.
    change (Z.pos p) with (Z.of_N (N.pos p)).
    rewrite <- (DecimalPos.Unsigned.of_to p).
    pose proof (DecimalPos.Unsigned.to_uint_nonnil p) as Hnn.
    generalize dependent (Pos.to_uint p); intros u _ Hnn.
    pose proof (digits_uint_zero u) as Hz.
    destruct u; [contradiction | ..]; simpl list_ascii_of_string in *; cbv iota beta;
      rewrite digits_first_digit by discriminate; exact Hz.
  - simpl Z.to_int in *; unfold NilEmpty.string_of_int; simpl list_ascii_of_string.
    cbv iota beta.
    change (Z.neg p) with (Z.opp (Z.of_N (N.pos p))).
    rewrite <- (DecimalPos.Unsigned.of_to p).
    pose proof (DecimalPos.Unsigned.to_uint_nonnil p) as Hnn.
    generalize dependent (Pos.to_uint p); intros u _ Hnn.
    pose proof (digits_uint_zero u) as Hz.
    destruct u; [contradiction | ..]; simpl list_ascii_of_string in *;
      rewrite digits_first_digit by discriminate; rewrite Hz; reflexivity.
Qed.

(** ** Splitting the names the script builds *)

Lemma split_not_nil (sep : ascii) (s : string) : Py.split sep s <> [].
Proof.
  destruct s as [|a s]; simpl; [discriminate|].
  destruct (Ascii.eqb a sep); [discriminate|].
  destruct (Py.split sep s); discriminate.
Qed.

Lemma split_app_sep (sep : ascii) (x y : string) :
  Py.split sep (x ++ String sep y) = (Py.split sep x ++ Py.split sep y)%list.
Proof.
  induction x as [|a x IH]; simpl.
  - rewrite Ascii.eqb_refl; reflexivity.
  - rewrite IH; destruct (Ascii.eqb a sep); [reflexivity|].
    destruct (Py.split sep x) as [|h t] eqn:E; [exfalso; exact (split_not_nil sep x E)|].
    reflexivity.
Qed.

Lemma split_no_sep (sep : ascii) (y : string) :
  Forall (fun c => Ascii.eqb c sep = false) (list_ascii_of_string y) ->
  Py.split sep y = [y].
Proof.
  induction y as [|a y IH]; simpl; intros H; [reflexivity|].
  inversion H; subst.
  match goal with Ha : Ascii.eqb a sep = false |- _ => rewrite Ha end.
  rewrite IH by assumption; reflexivity.
Qed.

Lemma list_ascii_of_string_app (x y : string) :
  list_ascii_of_string (x ++ y) = (list_ascii_of_string x ++ list_ascii_of_string y)%list.
Proof. induction x as [|a x IH]; simpl; [reflexivity | rewrite IH; reflexivity]. Qed.

Lemma string_append_empty (s : string) : s ++ "" = s.
Proof. induction s as [|a s IH]; simpl; [reflexivity | rewrite IH; reflexivity]. Qed.

(** The index text [f"{i}"] followed by [.webp], split as on line 103. *)
Lemma split_index_suffix (i : Z) :
  Py.split "_"%char (Py.str_of_int i ++ ".webp") = [Py.str_of_int i ++ ".webp"]
  /\ Py.split "."%char (Py.str_of_int i ++ ".webp") = [Py.str_of_int i; "webp"].
Proof.
  pose proof (str_of_int_plain i) as Hp.
  split.
  - apply split_no_sep; rewrite list_ascii_of_string_app; apply Forall_app; split.
    + eapply Forall_impl; [|exact Hp]; intros c [H _]; exact H.
    + repeat constructor.
  - change ".webp" with (String "."%char "webp").
    rewrite split_app_sep, split_no_sep; [reflexivity|].
    eapply Forall_impl; [|exact Hp]; intros c [_ [H _]]; exact H.
Qed.

(** Recovering [i] from any name ending in [_<i>.webp]: the text after the
    last [_], cut at the first [.], read as an int. *)
Lemma index_of_suffix (x : string) (i : Z) :
  (fun p => match Py.split "."%char (last (Py.split "_"%char p) "") with
            | y :: _ => Py.int y
            | [] => None
            end) (x ++ "_" ++ Py.str_of_int i ++ ".webp") = Some i.
Proof.
  cbv beta.
  change ("_" ++ Py.str_of_int i ++ ".webp") with (String "_"%char (Py.str_of_int i ++ ".webp")).
  rewrite split_app_sep.
  destruct (split_index_suffix i) as [H1 H2].
  rewrite H1, last_last, H2; apply py_int_str_of_int.
Qed.

Lemma endswith_app (x y : string) : Py.endswith (x ++ y) y = true.
Proof.
  unfold Py.endswith; rewrite list_ascii_of_string_app, rev_app_distr.
  generalize (rev (list_ascii_of_string x)); intros l.
  induction (rev (list_ascii_of_string y)) as [|a r IH]; simpl.
  - destruct (string_of_list_ascii l); reflexivity.
  - destruct (ascii_dec a a) as [_|n]; [exact IH | contradiction n; reflexivity].
Qed.

Lemma prefix_app (x y : string) : String.prefix x (x ++ y) = true.
Proof.
  induction x as [|a x IH]; simpl.
  - destruct y; reflexivity.
  - destruct (ascii_dec a a) as [_|n]; [exact IH | contradiction n; reflexivity].
Qed.

(** ** Extra properties *)

Lemma default_name_image (i : Z) : is_image_name (default_name i) = true.
Proof.
  unfold is_image_name, default_name; apply andb_true_intro; split.
  - apply prefix_app.
  - rewrite string_append_assoc; apply endswith_app.
Qed.

Lemma default_name_parse (i : Z) : parse_index (default_name i) = Some i.
Proof.
  unfold parse_index, default_name.
  change ("image_" ++ Py.str_of_int i ++ ".webp")
    with ("image" ++ String "_"%char (Py.str_of_int i ++ ".webp")).
  rewrite split_app_sep.
  destruct (split_index_suffix i) as [H1 H2]; rewrite H1.
  replace (Py.split "_"%char "image") with ["image"] by reflexivity.
  cbn [nth_error app].
  rewrite H2; apply py_int_str_of_int.
Qed.

(** The default name [image_<i>.webp] of line 28 passes the scan's filter
    (line 97) and its index parses back to [i] (line 103), for every int. *)
Theorem default_name_roundtrip (i : Z) :
  is_image_name (default_name i) = true /\ parse_index (default_name i) = Some i.
Proof. split; [apply default_name_image | apply default_name_parse]. Qed.

Lemma derive_filename_shape (i : Z) (hs : list (string * string)) :
  exists root, derive_filename i hs = root ++ "_" ++ Py.str_of_int i ++ ".webp".
Proof.
  unfold derive_filename.
  destruct (negb _); [exists "image"; reflexivity|].
  destruct (header_get hs "content-disposition") as [cd|]; [|exists "image"; reflexivity].
  destruct (Py.find cd "filename="); [eexists; reflexivity | exists "image"; reflexivity].
Qed.

Lemma join_shape (folder root tail : string) :
  exists x, Py.join folder (root ++ tail) = x ++ tail.
Proof.
  unfold Py.join.
  destruct (Py.startswith (root ++ tail) "/"); [eexists; reflexivity|].
  destruct (_ || _)%bool.
  - exists (folder ++ root); apply string_append_assoc.
  - exists (folder ++ "/" ++ root).
    rewrite <- string_append_assoc; reflexivity.
Qed.

(** Two calls with different indices never target the same file path,
    whatever headers their responses carry (lines 26-44): the path always
    ends in [_<i>.webp]. *)
Theorem file_path_injective (folder : string) (i j : Z) (hs1 hs2 : list (string * string)) :
  Py.join folder (derive_filename i hs1) = Py.join folder (derive_filename j hs2) -> i = j.
Proof.
  destruct (derive_filename_shape i hs1) as [r1 ->].
  destruct (derive_filename_shape j hs2) as [r2 ->].
  destruct (join_shape folder r1 ("_" ++ Py.str_of_int i ++ ".webp")) as [x1 ->].
  destruct (join_shape folder r2 ("_" ++ Py.str_of_int j ++ ".webp")) as [x2 ->].
  intros H.
  pose proof (index_of_suffix x1 i) as E1; pose proof (index_of_suffix x2 j) as E2.
  cbv beta in E1, E2; rewrite H in E1; congruence.
Qed.

Lemma file_path_injective_witness :
  Py.join "out" (derive_filename 3 [("content-disposition", "attachment; filename=cat.png")])
  = Py.join "out" (derive_filename 3 [("Content-Type", "image/png")])
  /\ 3 = 3.
Proof.
  split; [vm_compute; reflexivity|].
  apply (file_path_injective "out" 3 3 [("content-disposition", "attachment; filename=cat.png")]
           [("Content-Type", "image/png")]).
  vm_compute; reflexivity.
Defined.

(** What one call of [download_image] does to the shared state: the digest
    set never changes, and the folder is either unchanged or gains an empty
    file at the path derived from the response (line 57 runs, line 58
    raises). *)
Theorem download_image_effect (sha : list byte -> string) (can_open : string -> bool)
  (t : task) (w : world) :
  hashes (snd (download_image sha can_open t w)) = hashes w
  /\ (snd (download_image sha can_open t w) = w
      \/ exists r, t_net t = NetResponse r
           /\ snd (download_image sha can_open t w)
              = mk_world (fs_put (Py.join (t_folder t) (derive_filename (t_i t) (headers r))) []
                                 (fs w)) (hashes w)).
Proof.
  rewrite download_image_eq.
  destruct (fetch_phase_shape sha t) as [[e He] | [r [Hn [Hr [Hb He]]]]]; rewrite He.
  - auto.
  - destruct (set_mem _ _); [auto|].
    destruct (can_open _); [|auto].
    simpl; split; [reflexivity | right; exists r; auto].
Qed.

(** [download_image] never reports success, whatever the network, the
    digest set and the folder: the second [iter_content] of line 58 raises. *)
Theorem download_image_returns_false (sha : list byte -> string) (can_open : string -> bool)
  (t : task) (w : world) :
  fst (download_image sha can_open t w) = false.
Proof. apply download_image_never_true. Qed.

(** The index scan of lines 97-113 in terms of the names it can parse:
    with no parsable [image_*.webp] name it starts at 1, otherwise one past
    the largest index found. *)
Lemma parsed_index_In (dir : list entry) (k : Z) :
  parsed_index dir k <-> In k (fold_left collect_index (filter is_image_name (map e_name dir)) []).
Proof.
  rewrite collect_index_In; unfold parsed_index; split.
  - intros [f [Hin [Hi Hp]]]; right; exists f; split; [apply filter_In; auto | exact Hp].
  - intros [[] | [f [Hin Hp]]]; apply filter_In in Hin; exists f; tauto.
Qed.

Lemma start_index_spec (dir : list entry) :
  ((forall k, ~ parsed_index dir k) /\ start_index dir = 1)
  \/ (exists m, parsed_index dir m /\ (forall k, parsed_index dir k -> k <= m)
                /\ start_index dir = m + 1).
Proof.
  pose proof (parsed_index_In dir) as HP.
  unfold start_index; cbv zeta.
  remember (filter is_image_name (map e_name dir)) as ef eqn:Eef.
  destruct ef as [|f ef].
  - left; split; [intros k Hk; apply HP in Hk; exact Hk | reflexivity].
  - remember (fold_left collect_index (f :: ef) []) as idx eqn:Ei.
    destruct idx as [|x xs].
    + left; split; [intros k Hk; apply HP in Hk; exact Hk | reflexivity].
    + right; destruct (fold_max_spec xs x) as [Hin Hub].
      exists (fold_left Z.max xs x); split; [apply HP; exact Hin|].
      split; [intros k Hk; apply Hub, HP, Hk | reflexivity].
Qed.

Theorem start_index_cases (dir : list entry) :
  ((forall k, ~ parsed_index dir k) /\ start_index dir = 1)
  \/ (exists m, parsed_index dir m /\ (forall k, parsed_index dir k -> k <= m)
                /\ start_index dir = m + 1).
Proof. exact (start_index_spec dir). Qed.

Lemma start_index_max (dir : list entry) (m : Z) :
  parsed_index dir m -> (forall k, parsed_index dir k -> k <= m) -> start_index dir = m + 1.
Proof.
  intros Hm Hub; destruct (start_index_spec dir) as [[Hn _] | [m' [Hm' [Hub' ->]]]].
  - exfalso; exact (Hn m Hm).
  - specialize (Hub m' Hm'); specialize (Hub' m Hm); f_equal; lia.
Qed.

Lemma start_index_gt (dir : list entry) (k : Z) : parsed_index dir k -> k < start_index dir.
Proof.
  intros Hk; destruct (start_index_spec dir) as [[Hn _] | [m [_ [Hub ->]]]].
  - exfalso; exact (Hn k Hk).
  - specialize (Hub k Hk); lia.
Qed.

Lemma parsed_index_app_new (dir new : list entry) (s : Z) (n : nat) (k : Z)
  (Hnew : map e_name new = map (fun x => default_name (s + Z.of_nat x)) (seq 0 n)) :
  parsed_index (dir ++ new) k <->
  parsed_index dir k \/ exists x, (x < n)%nat /\ k = s + Z.of_nat x.
Proof.
  unfold parsed_index; rewrite map_app, Hnew; split.
  - intros [f [Hin [Hi Hp]]]; apply in_app_iff in Hin; destruct Hin as [Hin | Hin].
    + left; exists f; auto.
    + right; apply in_map_iff in Hin; destruct Hin as [x [<- Hx]].
      apply in_seq in Hx; exists x; split; [lia|].
      rewrite default_name_parse in Hp; inversion Hp; reflexivity.
  - intros [[f [Hin Hf]] | [x [Hx ->]]].
    + exists f; rewrite in_app_iff; tauto.
    + exists (default_name (s + Z.of_nat x)).
      split; [|split; [apply default_name_image | apply default_name_parse]].
      apply in_app_iff; right; apply in_map_iff; exists x; split; [reflexivity | apply in_seq; lia].
Qed.

(** Resuming continues the numbering: when the files added to the folder
    are named [image_<k>.webp] for the [n > 0] indices of
    [range(start_index, start_index + n)] (line 132 with the default name of
    line 28), the next scan starts at [start_index + n]. *)
Theorem start_index_after_new_files (dir new : list entry) (n : nat) (Hn : (0 < n)%nat)
  (Hnew : map e_name new = map (fun x => default_name (start_index dir + Z.of_nat x)) (seq 0 n)) :
  start_index (dir ++ new) = start_index dir + Z.of_nat n.
Proof.
  pose proof (start_index_gt dir) as Hlt.
  remember (start_index dir) as s eqn:Es.
  replace (s + Z.of_nat n) with ((s + Z.of_nat (n - 1)) + 1) by lia.
  apply start_index_max.
  - apply (parsed_index_app_new dir new s n _ Hnew); right; exists (n - 1)%nat; split; [lia | reflexivity].
  - intros k Hk; apply (parsed_index_app_new dir new s n k Hnew) in Hk.
    destruct Hk as [Hk | [x [Hx ->]]]; [specialize (Hlt k Hk); lia | lia].
Qed.

Lemma start_index_after_new_files_witness :
  start_index ([mk_entry "image_3.webp" true (Some [x41]); mk_entry "notes.txt" true None]
               ++ [mk_entry "image_4.webp" true None; mk_entry "image_5.webp" true None])
  = start_index [mk_entry "image_3.webp" true (Some [x41]); mk_entry "notes.txt" true None]
    + Z.of_nat 2.
Proof.
  apply start_index_after_new_files; [lia | vm_compute; reflexivity].
Defined.

Lemma except_handlers_false (e : py_exn) : except_handlers e = false.
Proof. unfold except_handlers; destruct (is_request_exception e); reflexivity. Qed.

Lemma step_no_success (sha : list byte -> string) (can_open : string -> bool)
  (t : task) (p : pc) (w : world) :
  pc_no_success p ->
  pc_no_success (fst (step sha can_open t p w))
  /\ hashes (snd (step sha can_open t p w)) = hashes w
  /\ (forall q c, fs_get (fs (snd (step sha can_open t p w))) q = Some c ->
        fs_get (fs w) q = Some c \/ c = []).
Proof.
  unfold step; destruct p as [| fp h s | fp h s | fp h s | h | b]; simpl; intros Hp.
  - destruct (fetch_phase_shape sha t) as [[e He] | [r [_ [_ [_ He]]]]]; rewrite He; simpl.
    + split; [apply except_handlers_false | auto].
    + auto.
  - destruct (set_mem h (hashes w)); simpl; auto.
  - destruct (can_open fp); simpl.
    + split; [exact Hp | split; [reflexivity|]].
      intros q c Hq; apply fs_get_put_new in Hq; exact Hq.
    + auto.
  - unfold iter_content; rewrite Hp; simpl; auto.
  - contradiction.
  - auto.
Qed.

Lemma pool_step_no_success (sha : list byte -> string) (can_open : string -> bool)
  (m j : nat) (ts : pool) (w : world) (ts' : pool) (w' : world) :
  pool_step sha can_open m j ts w = Some (ts', w') -> pool_no_success ts ->
  pool_no_success ts' /\ hashes w' = hashes w
  /\ (forall q c, fs_get (fs w') q = Some c -> fs_get (fs w) q = Some c \/ c = []).
Proof.
  unfold pool_step.
  destruct (nth_error ts j) as [[t p]|] eqn:Hn; [|discriminate].
  destruct (is_done p); [discriminate|].
  destruct (_ || _)%bool; [|discriminate].
  intros H HF.
  pose proof (nth_error_decomp _ _ _ Hn) as Hd.
  unfold pool_no_success in HF; rewrite Hd in HF.
  apply Forall_app in HF; destruct HF as [H1 H2].
  pose proof (Forall_inv H2) as Hp; pose proof (Forall_inv_tail H2) as H3; simpl in Hp.
  destruct (step_no_success sha can_open t p w Hp) as [Hp' [Hh Hf]].
  destruct (step sha can_open t p w) as [p' w1]; simpl in Hp', Hh, Hf.
  inversion H; subst ts' w'; clear H.
  split; [|split; [exact Hh | exact Hf]].
  apply Forall_app; split; [exact H1|]; constructor; [exact Hp' | exact H3].
Qed.

Lemma run_sched_no_success (sha : list byte -> string) (can_open : string -> bool)
  (m : nat) (sched : list nat) :
  forall ts w ts' w', run_sched sha can_open m sched ts w = Some (ts', w') ->
  pool_no_success ts ->
  pool_no_success ts' /\ hashes w' = hashes w
  /\ (forall q c, fs_get (fs w') q = Some c -> fs_get (fs w) q = Some c \/ c = []).
Proof.
  induction sched as [|j sched IH]; intros ts w ts' w' Hrun HF; simpl in Hrun.
  - inversion Hrun; subst; auto.
  - destruct (pool_step sha can_open m j ts w) as [[ts1 w1]|] eqn:Hs; [|discriminate].
    destruct (pool_step_no_success _ _ _ _ _ _ _ _ Hs HF) as [HF1 [Hh1 Hf1]].
    destruct (IH _ _ _ _ Hrun HF1) as [HF2 [Hh2 Hf2]].
    split; [exact HF2 | split; [congruence|]].
    intros q c Hq; destruct (Hf2 q c Hq) as [H | H]; [apply Hf1; exact H | auto].
Qed.

Lemma tasks_of_no_success (folder : string) (nets : list net_result) :
  forall i, pool_no_success (tasks_of folder i nets).
Proof.
  induction nets as [|n nets IH]; intros i; simpl; constructor; [exact I | apply IH].
Qed.

(** Along any run of the pool (lines 130-136), under any interleaving: no
    thread ever returns [True], the digest set stays what the scan of lines
    118-125 computed, and every file of the folder is either as it was
    before the run or empty. *)
Theorem resume_run_no_success (sha : list byte -> string) (can_open : string -> bool)
  (m : nat) (folder : string) (dir : list entry) (fs0 : files)
  (nets : list net_result) (sched : list nat) (ts : pool) (w : world)
  (Hrun : resume_run sha can_open m folder dir fs0 nets sched = Some (ts, w)) :
  hashes w = scan_hashes sha dir
  /\ (forall q c, fs_get (fs w) q = Some c -> fs_get fs0 q = Some c \/ c = [])
  /\ (forall t b, In (t, PDone b) ts -> b = false).
Proof.
  unfold resume_run in Hrun.
  destruct (run_sched_no_success _ _ _ _ _ _ _ _ Hrun
              (tasks_of_no_success folder nets (start_index dir))) as [HF [Hh Hf]].
  split; [exact Hh | split; [exact Hf|]].
  intros t b Hin; unfold pool_no_success in HF; rewrite Forall_forall in HF.
  exact (HF _ Hin).
Qed.

Lemma resume_run_no_success_witness :
  exists ts w,
    resume_run toy_sha any_path 4 out_folder [mk_entry "image_1.webp" true (Some [x42])]
      [("out/image_1.webp", [x42])] [NetResponse (ok_response [x41])] [0; 0; 0; 0]%nat
    = Some (ts, w)
    /\ hashes w = scan_hashes toy_sha [mk_entry "image_1.webp" true (Some [x42])].
Proof.
  do 2 eexists; split; [vm_compute; reflexivity|].
  exact (proj1 (resume_run_no_success toy_sha any_path 4 out_folder
                  [mk_entry "image_1.webp" true (Some [x42])] [("out/image_1.webp", [x42])]
                  [NetResponse (ok_response [x41])] [0; 0; 0; 0]%nat _ _ eq_refl)).
Defined.

Lemma step_rank (sha : list byte -> string) (can_open : string -> bool)
  (t : task) (p : pc) (w : world) :
  is_done p = false -> (rank (fst (step sha can_open t p w)) < rank p)%nat.
Proof.
  unfold step; destruct p as [| fp h s | fp h s | fp h s | h | b]; simpl; intros Hd;
    try discriminate.
  - destruct (fetch_phase_shape sha t) as [[e He] | [r [_ [_ [_ He]]]]]; rewrite He; simpl; lia.
  - destruct (set_mem h (hashes w)); simpl; lia.
  - destruct (can_open fp); simpl; lia.
  - destruct (iter_content s) as [e | data [e|] s']; simpl; lia.
  - lia.
Qed.

Lemma firstn_length_app {A : Type} (l r : list A) : firstn (List.length l) (l ++ r)%list = l.
Proof. induction l as [|a l IH]; simpl; [reflexivity | rewrite IH; reflexivity]. Qed.

Lemma skipn_length_app {A : Type} (l : list A) (x : A) (r : list A) :
  skipn (S (List.length l)) (l ++ x :: r)%list = r.
Proof. induction l as [|a l IH]; simpl; [reflexivity | exact IH]. Qed.

Lemma nth_error_length_app {A : Type} (l : list A) (x : A) (r : list A) :
  nth_error (l ++ x :: r)%list (List.length l) = Some x.
Proof. induction l as [|a l IH]; simpl; [reflexivity | exact IH]. Qed.

Lemma filter_none {A : Type} (f : A -> bool) (l : list A) :
  Forall (fun a => f a = false) l -> filter f l = [].
Proof. induction 1 as [|a l Ha _ IH]; simpl; [reflexivity | rewrite Ha; exact IH]. Qed.

Section Complete.

Variable sha : list byte -> string.
Variable can_open : string -> bool.
Variable m : nat.
Hypothesis Hm : (0 < m)%nat.

(** With every earlier task finished and every later one not started, the
    thread of the next task can run to its end. *)
Lemma finish_task (pre : pool) (t : task) (suf : pool)
  (Hpre : all_done pre) (Hsuf : Forall (fun tp => snd tp = PStart) suf) :
  forall n p w, (rank p <= n)%nat ->
  exists sched p' w',
    run_sched sha can_open m sched (pre ++ (t, p) :: suf)%list w
    = Some ((pre ++ (t, p') :: suf)%list, w')
    /\ is_done p' = true.
Proof.
  induction n as [|n IH]; intros p w Hr; destruct (is_done p) eqn:Hd.
  - exists [], p, w; auto.
  - destruct p; simpl in *; try lia; discriminate.
  - exists [], p, w; auto.
  - pose proof (step_rank sha can_open t p w Hd) as Hlt.
    destruct (step sha can_open t p w) as [p1 w1] eqn:Es; simpl in Hlt.
    destruct (IH p1 w1 ltac:(lia)) as [sched [p' [w' [Hrun Hd']]]].
    exists (List.length pre :: sched), p', w'; split; [|exact Hd'].
    simpl; unfold pool_step.
    rewrite nth_error_length_app, Hd, firstn_length_app, skipn_length_app.
    replace (started p || _)%bool with true.
    + rewrite Es; exact Hrun.
    + destruct p; try reflexivity; try discriminate.
      rewrite filter_app; simpl; rewrite (filter_none _ pre), filter_none.
      * simpl; symmetry; apply andb_true_intro; split; [apply Nat.ltb_lt; exact Hm|].
        apply forallb_forall; intros [t0 p0] Hin.
        unfold all_done in Hpre; rewrite Forall_forall in Hpre.
        specialize (Hpre _ Hin); simpl in *; destruct p0; try discriminate; reflexivity.
      * eapply Forall_impl; [|exact Hsuf]; intros [t0 p0] E; simpl in *; subst; reflexivity.
      * eapply Forall_impl; [|exact Hpre]; intros [t0 p0] E; simpl in *.
        destruct p0; try discriminate; reflexivity.
Qed.

Lemma finish_all (rest : list task) :
  forall pre w, all_done pre ->
  exists sched ts w',
    run_sched sha can_open m sched (pre ++ map (fun t => (t, PStart)) rest)%list w
    = Some (ts, w')
    /\ all_done ts /\ map fst ts = (map fst pre ++ rest)%list.
Proof.
  induction rest as [|t rest IH]; intros pre w Hpre.
  - exists [], pre, w; rewrite !app_nil_r; auto.
  - assert (Hsuf : Forall (fun tp => snd tp = PStart) (map (fun t => (t, PStart)) rest)).
    { apply Forall_forall; intros tp Hin; apply in_map_iff in Hin.
      destruct Hin as [t0 [<- _]]; reflexivity. }
    destruct (finish_task pre t _ Hpre Hsuf 5 PStart w ltac:(simpl; lia))
      as [s1 [p' [w1 [H1 Hd1]]]].
    assert (Hpre' : all_done (pre ++ [(t, p')])%list).
    { apply Forall_app; split; [exact Hpre | constructor; [exact Hd1 | constructor]]. }
    destruct (IH _ w1 Hpre') as [s2 [ts [w' [H2 [Hd2 Hm2]]]]].
    exists (s1 ++ s2)%list, ts, w'; split; [|split; [exact Hd2|]].
    + rewrite run_sched_app; simpl map; rewrite H1.
      rewrite <- app_assoc in H2; exact H2.
    + rewrite Hm2, map_app, <- app_assoc; reflexivity.
Qed.

End Complete.

Lemma tasks_of_start (folder : string) (nets : list net_result) :
  forall i, tasks_of folder i nets = map (fun t => (t, PStart)) (map fst (tasks_of folder i nets)).
Proof.
  induction nets as [|n nets IH]; intros i; simpl; [reflexivity | rewrite <- IH; reflexivity].
Qed.

(** With [max_workers > 0] (which [__main__] ensures, lines 150-158), some
    interleaving of the pool (lines 130-136) takes every submitted task to
    its end, so [concurrent.futures.wait(futures)] returns. *)
Theorem resume_run_completes (sha : list byte -> string) (can_open : string -> bool)
  (m : nat) (Hm : (0 < m)%nat) (folder : string) (dir : list entry) (fs0 : files)
  (nets : list net_result) :
  exists sched ts w,
    resume_run sha can_open m folder dir fs0 nets sched = Some (ts, w)
    /\ map fst ts = map fst (tasks_of folder (start_index dir) nets)
    /\ Forall (fun tp => is_done (snd tp) = true) ts.
Proof.
  unfold resume_run; rewrite tasks_of_start.
  destruct (finish_all sha can_open m Hm (map fst (tasks_of folder (start_index dir) nets)) []
              (mk_world fs0 (scan_hashes sha dir)) (Forall_nil _))
    as [sched [ts [w [Hrun [Hd Hmap]]]]].
  exists sched, ts, w; split; [exact Hrun | split; [|exact Hd]].
  rewrite Hmap, map_map; simpl; rewrite map_id; reflexivity.
Qed.

Lemma resume_run_completes_witness :
  exists sched ts w,
    resume_run toy_sha any_path 2 out_folder [] []
      [NetResponse (ok_response [x41]); NetRaise Timeout; NetResponse (ok_response [x41])] sched
    = Some (ts, w)
    /\ map fst ts = map fst (tasks_of out_folder (start_index [])
         [NetResponse (ok_response [x41]); NetRaise Timeout; NetResponse (ok_response [x41])])
    /\ Forall (fun tp => is_done (snd tp) = true) ts.
Proof.
  exact (resume_run_completes toy_sha any_path 2 ltac:(lia) out_folder [] []
           [NetResponse (ok_response [x41]); NetRaise Timeout; NetResponse (ok_response [x41])]).
Defined.

(** The name taken from [Content-Disposition] (lines 30-35) is joined to the
    output folder unchecked (line 44): with a [image/webp] type, an absolute
    name puts the file outside the folder and a relative one with [..]
    climbs out of it. *)
Theorem header_name_escapes_folder :
  Py.join "out" (derive_filename 1 [("Content-Type", "image/webp");
                                    ("Content-Disposition", "attachment; filename=/tmp/evil.png")])
  = "/tmp/evil_1.webp"
  /\ Py.join "out" (derive_filename 2 [("Content-Type", "image/webp");
                                      ("Content-Disposition", "attachment; filename=../../x.png")])
  = "out/../../x_2.webp".
Proof. split; vm_compute; reflexivity. Qed.

(** [__main__] composed with the pool: whatever lines are typed, once both
    prompts have been answered (lines 142-158) the pool built from the
    thread count it reads can take every task to its end. *)
Theorem main_args_pool_completes (lines : list string) (count num_threads : Z)
  (Hargs : main_args lines = Some (count, num_threads))
  (sha : list byte -> string) (can_open : string -> bool)
  (folder : string) (dir : list entry) (fs0 : files) (nets : list net_result) :
  exists sched ts w,
    resume_run sha can_open (Z.to_nat num_threads) folder dir fs0 nets sched = Some (ts, w)
    /\ Forall (fun tp => is_done (snd tp) = true) ts.
Proof.
  assert (Hpos : 0 < num_threads).
  { unfold main_args in Hargs.
    destruct (read_count lines) as [[c rest]|]; [|discriminate].
    destruct (read_threads rest) as [[n r]|] eqn:Ht; [|discriminate].
    inversion Hargs; subst; eapply read_threads_positive; eauto. }
  unfold resume_run; rewrite tasks_of_start.
  destruct (finish_all sha can_open (Z.to_nat num_threads) ltac:(lia)
              (map fst (tasks_of folder (start_index dir) nets)) []
              (mk_world fs0 (scan_hashes sha dir)) (Forall_nil _))
    as [sched [ts [w [Hrun [Hd _]]]]].
  exists sched, ts, w; split; [exact Hrun | exact Hd].
Qed.

Lemma main_args_pool_completes_witness :
  main_args ["ten"; "3"; "0"; "four"; "2"] = Some (3, 2)
  /\ exists sched ts w,
       resume_run toy_sha any_path (Z.to_nat 2) out_folder [] []
         [NetResponse (ok_response [x41]); NetRaise ConnectionError; NetResponse (ok_response [x42])]
         sched = Some (ts, w)
       /\ Forall (fun tp => is_done (snd tp) = true) ts.
Proof.
  split; [vm_compute; reflexivity|].
  apply (main_args_pool_completes ["ten"; "3"; "0"; "four"; "2"] 3 2); vm_compute; reflexivity.
Defined.

(** The thread count passed at line 160 is positive: lines 150-158
    re-prompt until a positive int is typed. *)
Theorem main_threads_positive (lines : list string) (count num_threads : Z)
  (Hargs : main_args lines = Some (count, num_threads)) : 0 < num_threads.
Proof. exact (main_args_threads_positive lines count num_threads Hargs). Qed.

Lemma main_threads_positive_witness : main_args ["5"; "-1"; "x"; "6"] = Some (5, 6) /\ 0 < 6.
Proof.
  split; [vm_compute; reflexivity|].
  apply (main_threads_positive ["5"; "-1"; "x"; "6"] 5 6); vm_compute; reflexivity.
Defined.
